(** * insta-dashboard backend: the post queue and its scheduler

    A shallow embedding of [backend/server.js]: the [queue] table of the
    SQLite database, the request handlers that write to it
    ([/api/create_media], [/api/publish_media], [/api/schedule],
    [/api/queue], [DELETE /api/queue/:id]) and the [node-cron] task that
    publishes due posts every minute.

    The handlers are [async] functions.  What they take from the outside
    world is passed in explicitly: the value of [Math.random().toString(36)],
    the readings of the clock, and whether the database driver rejects the
    statement. *)

From Stdlib Require Import ZArith List String Ascii Bool Lia Permutation.
Import ListNotations.
Local Open Scope string_scope.
Local Open Scope Z_scope.

(** ** JavaScript values of the request body *)

(** The fields the handlers destructure from [req.body || {}] are sent by
    the dashboard as JSON strings; a field can also be [null] or absent. *)
Inductive jsval : Type :=
| JUndefined
| JNull
| JStr (s : string).

(** [!!v] *)
Definition truthy (v : jsval) : bool :=
  match v with
  | JStr s => negb (s =? "")%string
  | _ => false
  end.

(** [v || d], where [d] is a string. *)
Definition js_or (v : jsval) (d : string) : string :=
  match v with
  | JStr s => if (s =? "")%string then d else s
  | _ => d
  end.

(** ** [Date.prototype.toISOString] *)

(** Clock readings are milliseconds since the epoch, as [Date.now()] returns
    them. *)
Definition digit (d : Z) : ascii := ascii_of_nat (48 + Z.to_nat d).

Fixpoint pad (w : nat) (n : Z) : string :=
  match w with
  | O => ""
  | S w' => pad w' (n / 10) ++ String (digit (n mod 10)) ""
  end.

Definition msPerDay : Z := 86400000.

(** Year, month and day of the proleptic Gregorian calendar from the day
    number (days since 1970-01-01). *)
Definition civil (days : Z) : Z * Z * Z :=
  let z := days + 719468 in
  let era := z / 146097 in
  let doe := z - era * 146097 in
  let yoe := (doe - doe / 1460 + doe / 36524 - doe / 146096) / 365 in
  let doy := doe - (365 * yoe + yoe / 4 - yoe / 100) in
  let mp := (5 * doy + 2) / 153 in
  let d := doy - (153 * mp + 2) / 5 + 1 in
  let m := if mp <? 10 then mp + 3 else mp - 9 in
  let y := yoe + era * 400 + (if m <=? 2 then 1 else 0) in
  (y, m, d).

Definition isoYear (y : Z) : string :=
  if (0 <=? y) && (y <=? 9999) then pad 4 y
  else if y <? 0 then "-" ++ pad 6 (- y)
  else "+" ++ pad 6 y.

Definition toISOString (ms : Z) : string :=
  let '(y, m, d) := civil (ms / msPerDay) in
  let t := ms mod msPerDay in
  isoYear y ++ "-" ++ pad 2 m ++ "-" ++ pad 2 d ++ "T"
    ++ pad 2 (t / 3600000) ++ ":" ++ pad 2 (t / 60000 mod 60) ++ ":"
    ++ pad 2 (t / 1000 mod 60) ++ "." ++ pad 3 (t mod 1000) ++ "Z".

(** ** Helpers *)

(** [function makeId() { return Math.random().toString(36).slice(2, 10); }]
    The argument [r36] is the string [Math.random().toString(36)], such as
    ["0.k3v9x1q8zrb"]; [slice(2, 10)] keeps at most eight characters from
    index 2. *)
Definition makeId (r36 : string) : string := substring 2 8 r36.

(** ** The [queue] table *)

(** [status TEXT]: the handlers only ever write these three values. *)
Inductive job_status : Type := created | scheduled | published.

(** One row of
    [CREATE TABLE queue (id TEXT PRIMARY KEY, imageUrl TEXT, caption TEXT,
     scheduledAt TEXT, status TEXT, createdAt TEXT)].
    A column an [INSERT] does not list is [NULL] ([None]). *)
Record row : Type := mkRow {
  id : string;
  imageUrl : option string;
  caption : string;
  scheduledAt : option string;
  status : job_status;
  createdAt : string
}.

(** The table, in rowid order: a new row goes to the end. *)
Definition table : Type := list row.

(** The value bound to a [?] of a statement: a string is bound as TEXT,
    [null] as NULL. *)
Definition sql_text (v : jsval) : option string :=
  match v with
  | JStr s => Some s
  | _ => None
  end.

(** [column = ?]; a comparison with NULL is never true. *)
Definition sql_eq (c : string) (p : option string) : bool :=
  match p with
  | Some s => (c =? s)%string
  | None => false
  end.

(** What a promise of the driver settles to. *)
Inductive outcome (A : Type) : Type :=
| Resolved (a : A)
| Rejected (message : string).
Arguments Resolved {A} a.
Arguments Rejected {A} message.

(** Each statement takes [fault]: [Some m] when the driver rejects it with
    the error message [m] (database locked, disk error, ...); a rejected
    statement changes nothing. *)
Definition ids (q : table) : list string := map id q.

Definition has_id (i : string) (q : table) : bool :=
  existsb (fun r => (id r =? i)%string) q.

Definition constraint_failed : string :=
  "SQLITE_CONSTRAINT: UNIQUE constraint failed: queue.id".

(** [INSERT INTO queue (...) VALUES (...)]: the primary key refuses an id the
    table already holds. *)
Definition db_insert (fault : option string) (r : row) (q : table)
  : outcome table :=
  match fault with
  | Some m => Rejected m
  | None =>
      if has_id (id r) q then Rejected constraint_failed
      else Resolved (q ++ [r])%list
  end.

Definition publish_row (now : string) (r : row) : row :=
  mkRow (id r) (imageUrl r) (caption r) (Some now) published (createdAt r).

(** [UPDATE queue SET status = 'published', scheduledAt = ? WHERE id = ?] *)
Definition db_update_published (fault : option string) (now : string)
  (i : option string) (q : table) : outcome table :=
  match fault with
  | Some m => Rejected m
  | None =>
      Resolved (map (fun r => if sql_eq (id r) i then publish_row now r else r) q)
  end.

(** [DELETE FROM queue WHERE id = ?] *)
Definition db_delete (fault : option string) (i : string) (q : table)
  : outcome table :=
  match fault with
  | Some m => Rejected m
  | None => Resolved (filter (fun r => negb (id r =? i)%string) q)
  end.

(** [status = 'scheduled' AND scheduledAt <= ?]: TEXT values are compared
    byte by byte; a NULL [scheduledAt] does not match. *)
Definition is_due (now : string) (r : row) : bool :=
  match status r, scheduledAt r with
  | scheduled, Some t => String.leb t now
  | _, _ => false
  end.

(** [SELECT * FROM queue WHERE status = ? AND scheduledAt <= ?] *)
Definition db_all_due (fault : option string) (now : string) (q : table)
  : outcome (list row) :=
  match fault with
  | Some m => Rejected m
  | None => Resolved (filter (is_due now) q)
  end.

(** [ORDER BY createdAt DESC]: rows with equal [createdAt] keep the order of
    the table. *)
Fixpoint insert_desc (r : row) (l : list row) : list row :=
  match l with
  | [] => [r]
  | x :: l' =>
      if String.leb (createdAt x) (createdAt r) then r :: x :: l'
      else x :: insert_desc r l'
  end.

Definition order_by_createdAt_desc (q : table) : list row :=
  fold_right insert_desc [] q.

(** [SELECT * FROM queue ORDER BY createdAt DESC] *)
Definition db_all_queue (fault : option string) (q : table)
  : outcome (list row) :=
  match fault with
  | Some m => Rejected m
  | None => Resolved (order_by_createdAt_desc q)
  end.

(** ** Request handlers *)

(** The fields the handlers read from [req.body || {}]; a field the request
    does not send is [JUndefined]. *)
Record body : Type := mkBody {
  req_imageUrl : jsval;
  req_caption : jsval;
  req_creation_id : jsval;
  req_scheduleTime : jsval
}.

(** What [res.json] or [res.status(code).json({ error })] sends. *)
Inductive response : Type :=
| Json_creation_id (creation_id : string)
| Json_published (post_id publishedAt : string)
| Json_scheduled (jobId scheduledAt_ : string)
| Json_rows (rows : list row)
| Json_ok
| Status_error (code : Z) (error : string).

(** [POST /api/create_media] *)
Definition create_media (b : body) (r36 : string) (now : Z)
  (fault : option string) (q : table) : response * table :=
  if negb (truthy (req_imageUrl b)) then (Status_error 400 "Missing imageUrl", q)
  else
    let i := makeId r36 in
    match db_insert fault
            (mkRow i (sql_text (req_imageUrl b)) (js_or (req_caption b) "")
               None created (toISOString now)) q with
    | Resolved q' => (Json_creation_id i, q')
    | Rejected m => (Status_error 500 m, q)
    end.

(** [POST /api/publish_media].  The publication itself is simulated: a post
    id is made up and the row is marked.  The statement is the only step of
    the [try] that can throw. *)
Definition publish_media (b : body) (r36 : string) (now : Z)
  (fault : option string) (q : table) : response * table :=
  if negb (truthy (req_creation_id b)) then
    (Status_error 400 "Missing creation_id", q)
  else
    let postId := "post_" ++ makeId r36 in
    let now := toISOString now in
    match db_update_published fault now (sql_text (req_creation_id b)) q with
    | Resolved q' => (Json_published postId now, q')
    | Rejected m => (Status_error 500 m, q)
    end.

(** [POST /api/schedule]; [now] is the reading of [Date.now()] for the
    default time, [now'] the one of [new Date()] for [createdAt]. *)
Definition schedule (b : body) (r36 : string) (now now' : Z)
  (fault : option string) (q : table) : response * table :=
  if negb (truthy (req_imageUrl b)) then (Status_error 400 "Missing imageUrl", q)
  else
    let i := makeId r36 in
    let scheduledAt :=
      js_or (req_scheduleTime b) (toISOString (now + 60 * 60 * 1000)) in
    match db_insert fault
            (mkRow i (sql_text (req_imageUrl b)) (js_or (req_caption b) "")
               (Some scheduledAt) scheduled (toISOString now')) q with
    | Resolved q' => (Json_scheduled i scheduledAt, q')
    | Rejected m => (Status_error 500 m, q)
    end.

(** [GET /api/queue] *)
Definition list_queue (fault : option string) (q : table) : response * table :=
  match db_all_queue fault q with
  | Resolved rows => (Json_rows rows, q)
  | Rejected m => (Status_error 500 m, q)
  end.

(** [DELETE /api/queue/:id] *)
Definition delete_queue (i : string) (fault : option string) (q : table)
  : response * table :=
  match db_delete fault i q with
  | Resolved q' => (Json_ok, q')
  | Rejected m => (Status_error 500 m, q)
  end.

(** ** The scheduler *)

(** What the task writes with [console.log] and [console.error]. *)
Inductive log_line : Type :=
| Log_publishing (i : string)
| Log_scheduler_error (message : string).

(** One turn of [for (const row of due)]: the log line, then the [UPDATE]
    stamped with a fresh [new Date()]. *)
Definition tick_body (r : row) (now : Z) (fault : option string) (q : table)
  : outcome table :=
  db_update_published fault (toISOString now) (Some (id r)) q.

(** The loop, run without anything else in between.  [io k] is what the
    [k]-th turn meets: the clock reading and the fault of its statement.  A
    rejected statement throws out of the loop into the [catch] around the
    whole task. *)
Fixpoint tick_loop (due : list row) (io : nat -> Z * option string)
  (q : table) : list log_line * table :=
  match due with
  | [] => ([], q)
  | r :: due' =>
      match tick_body r (fst (io O)) (snd (io O)) q with
      | Resolved q' =>
          let '(log, q'') := tick_loop due' (fun k => io (S k)) q' in
          (Log_publishing (id r) :: log, q'')
      | Rejected m => ([Log_publishing (id r); Log_scheduler_error m], q)
      end
  end.

(** [cron.schedule('* * * * *', async () => { ... })]: one run of the task. *)
Definition cron_tick (now : Z) (fault : option string)
  (io : nat -> Z * option string) (q : table) : list log_line * table :=
  match db_all_due fault (toISOString now) q with
  | Resolved due => tick_loop due io q
  | Rejected m => ([Log_scheduler_error m], q)
  end.

(** What a run of the loop over [due] that meets no fault makes of a stored
    row [r]: the turn for the row of [due] with the id of [r] stamps it. *)
Fixpoint stamp (due : list row) (io : nat -> Z * option string) (r : row)
  : row :=
  match due with
  | [] => r
  | d :: due' =>
      if (id r =? id d)%string then publish_row (toISOString (fst (io O))) r
      else stamp due' (fun k => io (S k)) r
  end.

(** ** The server: requests and scheduler runs interleaved *)

(** Every handler awaits a single statement, so a request is one step.  The
    scheduled task awaits its [SELECT] and then each [UPDATE] in turn:
    between two of its statements any request, and the start of a later run,
    can take place.  [running] holds, for each run started so far, the rows
    of [due] its loop has still to visit. *)
Record server : Type := mkServer {
  queue : table;
  running : list (list row);
  console : list log_line
}.

Definition boot : server := mkServer [] [] [].

Inductive event : Type :=
| Post_create_media (b : body) (r36 : string) (now : Z) (fault : option string)
| Post_publish_media (b : body) (r36 : string) (now : Z) (fault : option string)
| Post_schedule (b : body) (r36 : string) (now now' : Z) (fault : option string)
| Get_queue (fault : option string)
| Delete_queue (i : string) (fault : option string)
| Cron_fire (now : Z) (fault : option string)
| Cron_turn (k : nat) (now : Z) (fault : option string).

Fixpoint set_nth {A : Type} (k : nat) (x : A) (l : list A) : list A :=
  match l, k with
  | [], _ => []
  | _ :: l', O => x :: l'
  | y :: l', S k' => y :: set_nth k' x l'
  end.

Definition answer (s : server) (rq : response * table)
  : server * option response :=
  (mkServer (snd rq) (running s) (console s), Some (fst rq)).

(** [Cron_fire]: the task starts, takes its snapshot of the clock and reads
    the due rows.  [Cron_turn k]: the [k]-th run started makes the next turn
    of its loop; when its statement is rejected the run ends in the [catch]. *)
Definition step (s : server) (e : event) : server * option response :=
  match e with
  | Post_create_media b r36 now f => answer s (create_media b r36 now f (queue s))
  | Post_publish_media b r36 now f => answer s (publish_media b r36 now f (queue s))
  | Post_schedule b r36 now now' f => answer s (schedule b r36 now now' f (queue s))
  | Get_queue f => answer s (list_queue f (queue s))
  | Delete_queue i f => answer s (delete_queue i f (queue s))
  | Cron_fire now f =>
      match db_all_due f (toISOString now) (queue s) with
      | Resolved due =>
          (mkServer (queue s) (running s ++ [due])%list (console s), None)
      | Rejected m =>
          (mkServer (queue s) (running s ++ [[]])%list
             (console s ++ [Log_scheduler_error m])%list, None)
      end
  | Cron_turn k now f =>
      match nth_error (running s) k with
      | Some (r :: due') =>
          match tick_body r now f (queue s) with
          | Resolved q' =>
              (mkServer q' (set_nth k due' (running s))
                 (console s ++ [Log_publishing (id r)])%list, None)
          | Rejected m =>
              (mkServer (queue s) (set_nth k [] (running s))
                 (console s ++ [Log_publishing (id r); Log_scheduler_error m])%list,
               None)
          end
      | _ => (s, None)
      end
  end.

Fixpoint run (s : server) (tr : list event) : server :=
  match tr with
  | [] => s
  | e :: tr' => run (fst (step s e)) tr'
  end.

(** The id a successful create or schedule request hands out. *)
Definition assigned (s : server) (e : event) : option string :=
  match snd (step s e) with
  | Some (Json_creation_id i) => Some i
  | Some (Json_scheduled i _) => Some i
  | _ => None
  end.

Fixpoint assigned_ids (s : server) (tr : list event) : list string :=
  match tr with
  | [] => []
  | e :: tr' =>
      match assigned s e with
      | Some i => i :: assigned_ids (fst (step s e)) tr'
      | None => assigned_ids (fst (step s e)) tr'
      end
  end.

(** The id named by the [UPDATE ... SET status = 'published'] that step [e]
    executes, when its statement is not rejected. *)
Definition update_target (s : server) (e : event) : option string :=
  match e with
  | Post_publish_media b _ _ None =>
      if truthy (req_creation_id b) then sql_text (req_creation_id b) else None
  | Cron_turn k _ None =>
      match nth_error (running s) k with
      | Some (r :: _) => Some (id r)
      | _ => None
      end
  | _ => None
  end.

(** Step [e] writes [published] to a stored row with id [i]. *)
Definition records_publish (i : string) (s : server) (e : event) : bool :=
  match update_target s e with
  | Some j => (j =? i)%string && has_id i (queue s)
  | None => false
  end.

(** How many times a run of the server writes [published] to the row [i]. *)
Fixpoint publishes_recorded (i : string) (s : server) (tr : list event) : nat :=
  match tr with
  | [] => O
  | e :: tr' =>
      ((if records_publish i s e then 1 else 0)
       + publishes_recorded i (fst (step s e)) tr')%nat
  end.

(** The next [n] turns of the [k]-th run of the task, one after the other;
    [io j] is what the [j]-th of them meets. *)
Definition turns (k : nat) (io : nat -> Z * option string) (n : nat)
  : list event :=
  map (fun j => Cron_turn k (fst (io j)) (snd (io j))) (seq 0 n).

(** * Properties *)

(** ** The built-ins, on sample values *)

Example makeId_long : makeId "0.k3v9x1q8zrb" = "k3v9x1q8".
Proof. reflexivity. Qed.

Example makeId_short : makeId "0.i" = "i".
Proof. reflexivity. Qed.

Example toISOString_epoch : toISOString 0 = "1970-01-01T00:00:00.000Z".
Proof. reflexivity. Qed.

Example toISOString_2023 :
  toISOString 1700000000123 = "2023-11-14T22:13:20.123Z".
Proof. vm_compute. reflexivity. Qed.

Example toISOString_leap :
  toISOString 1709164799999 = "2024-02-28T23:59:59.999Z".
Proof. vm_compute. reflexivity. Qed.

Example toISOString_before_epoch :
  toISOString (-1) = "1969-12-31T23:59:59.999Z".
Proof. vm_compute. reflexivity. Qed.

Example toISOString_leap_day :
  toISOString 1709208000000 = "2024-02-29T12:00:00.000Z".
Proof. vm_compute. reflexivity. Qed.

(** ** Values and statements *)

Lemma truthy_false_inv (v : jsval) :
  truthy v = false <-> v = JUndefined \/ v = JNull \/ v = JStr "".
Proof.
  destruct v as [| |s]; simpl.
  - intuition congruence.
  - intuition congruence.
  - destruct (String.eqb_spec s "") as [->|Hne]; simpl.
    + intuition congruence.
    + split; [discriminate|].
      intros [H|[H|H]]; try discriminate. injection H as ->. now elim Hne.
Qed.

Lemma truthy_str (s : string) : s <> "" -> truthy (JStr s) = true.
Proof.
  intros Hne. simpl. destruct (String.eqb_spec s ""); [contradiction|reflexivity].
Qed.

Lemma has_id_true (i : string) (q : table) :
  has_id i q = true <-> In i (ids q).
Proof.
  unfold has_id, ids. rewrite existsb_exists, in_map_iff.
  split; intros [r [H1 H2]]; exists r.
  - apply String.eqb_eq in H2. auto.
  - split; [assumption|]. now apply String.eqb_eq.
Qed.

Lemma has_id_false (i : string) (q : table) :
  has_id i q = false <-> ~ In i (ids q).
Proof.
  rewrite <- has_id_true. destruct (has_id i q); intuition congruence.
Qed.

Lemma update_absent (now : string) (i : option string) (q : table) :
  (forall s, i = Some s -> has_id s q = false) ->
  map (fun r => if sql_eq (id r) i then publish_row now r else r) q = q.
Proof.
  intros Habs. destruct i as [s|]; simpl.
  - specialize (Habs s eq_refl). induction q as [|r q IH]; simpl in *; [reflexivity|].
    apply Bool.orb_false_iff in Habs as [Hr Hq].
    rewrite Hr. f_equal. apply IH, Hq.
  - clear Habs. induction q as [|r q IH]; [reflexivity|].
    cbn [map sql_eq]. f_equal. exact IH.
Qed.

Lemma update_hits (now i : string) (q : table) (r : row) :
  In r q -> id r = i ->
  In (publish_row now r)
     (map (fun r => if sql_eq (id r) (Some i) then publish_row now r else r) q).
Proof.
  intros Hin Hid. apply in_map_iff. exists r. split; [|assumption].
  simpl. subst i. now rewrite String.eqb_refl.
Qed.

Lemma update_marks (now i : string) (q : table) (r' : row) :
  In r' (map (fun r => if sql_eq (id r) (Some i) then publish_row now r else r) q) ->
  id r' = i ->
  status r' = published /\ scheduledAt r' = Some now.
Proof.
  intros Hin Hid. apply in_map_iff in Hin as [r [Hr Hin]]. simpl in Hr.
  destruct (String.eqb_spec (id r) i) as [Heq|Hne].
  - subst r'. simpl. auto.
  - subst r'. contradiction.
Qed.

Lemma update_ids (now : string) (i : option string) (q : table) :
  ids (map (fun r => if sql_eq (id r) i then publish_row now r else r) q) = ids q.
Proof.
  unfold ids. rewrite map_map. apply map_ext. intros r.
  now destruct (sql_eq (id r) i).
Qed.

Lemma insert_desc_perm (r : row) (l : list row) :
  Permutation (r :: l) (insert_desc r l).
Proof.
  induction l as [|x l IH]; simpl; [reflexivity|].
  destruct (String.leb (createdAt x) (createdAt r)); [reflexivity|].
  rewrite perm_swap. now constructor.
Qed.

Lemma order_by_perm (q : table) : Permutation q (order_by_createdAt_desc q).
Proof.
  induction q as [|r q IH]; simpl; [constructor|].
  rewrite <- insert_desc_perm. now constructor.
Qed.

Lemma filter_twice {A : Type} (p : A -> bool) (l : list A) :
  filter p (filter p l) = filter p l.
Proof.
  induction l as [|x l IH]; simpl; [reflexivity|].
  destruct (p x) eqn:Hp; simpl; [|assumption].
  rewrite Hp. now f_equal.
Qed.

(** ** Requests *)

(** C3. When the statement of [/api/publish_media] fails, the request is
    answered with the error (status 500) and the table is left as it was;
    otherwise every row with the requested id is [published] and its
    [scheduledAt] is the time of the request. *)
Theorem publish_media_failure_keeps_row :
  forall (b : body) (r36 : string) (now : Z) (fault : option string)
         (q : table) (i : string),
    req_creation_id b = JStr i -> i <> "" ->
    (forall m, fault = Some m ->
       publish_media b r36 now fault q = (Status_error 500 m, q)) /\
    (fault = None ->
       exists q',
         publish_media b r36 now fault q
           = (Json_published ("post_" ++ makeId r36) (toISOString now), q') /\
         (forall r, In r q -> id r = i -> In (publish_row (toISOString now) r) q') /\
         (forall r', In r' q' -> id r' = i ->
            status r' = published /\ scheduledAt r' = Some (toISOString now))).
Proof.
  intros b r36 now fault q i Hb Hi. unfold publish_media.
  rewrite Hb, (truthy_str i Hi). simpl negb. cbv iota. split.
  - intros m ->. reflexivity.
  - intros ->. simpl db_update_published. eexists. split; [reflexivity|]. split.
    + intros r Hin Hid. now apply update_hits.
    + intros r' Hin Hid. now apply (update_marks _ i q).
Qed.

Lemma publish_media_failure_keeps_row_witness :
  let b := mkBody JUndefined JUndefined (JStr "k3v9x1q8") JUndefined in
  let q := [mkRow "k3v9x1q8" (Some "http://x/a.jpg") "" None created
              "2023-11-14T22:13:20.000Z"] in
  publish_media b "0.4fzyo82mvyr" 1700000060000 (Some "SQLITE_BUSY: database is locked") q
    = (Status_error 500 "SQLITE_BUSY: database is locked", q).
Proof.
  intros b q.
  apply (proj1 (publish_media_failure_keeps_row b "0.4fzyo82mvyr" 1700000060000
                  (Some "SQLITE_BUSY: database is locked") q "k3v9x1q8"
                  eq_refl ltac:(discriminate))).
  reflexivity.
Defined.

(** C4, as the handlers have it.  [/api/create_media] and [/api/schedule]
    answer a missing or empty [imageUrl] with status 400 and insert nothing;
    [/api/publish_media] does not read [imageUrl]: it answers a missing or
    empty [creation_id] with status 400 and changes nothing. *)
Theorem missing_field_is_rejected :
  forall (b : body) (r36 : string) (now now' : Z) (fault : option string)
         (q : table),
    (truthy (req_imageUrl b) = false ->
       create_media b r36 now fault q = (Status_error 400 "Missing imageUrl", q) /\
       schedule b r36 now now' fault q = (Status_error 400 "Missing imageUrl", q)) /\
    (truthy (req_creation_id b) = false ->
       publish_media b r36 now fault q = (Status_error 400 "Missing creation_id", q)).
Proof.
  intros b r36 now now' fault q. split.
  - intros H. unfold create_media, schedule. rewrite H. split; reflexivity.
  - intros H. unfold publish_media. rewrite H. reflexivity.
Qed.

Lemma missing_field_is_rejected_witness :
  create_media (mkBody (JStr "") (JStr "hello") JUndefined JUndefined)
    "0.k3v9x1q8zrb" 1700000000000 None []
  = (Status_error 400 "Missing imageUrl", []).
Proof.
  apply (proj1 (missing_field_is_rejected
                  (mkBody (JStr "") (JStr "hello") JUndefined JUndefined)
                  "0.k3v9x1q8zrb" 1700000000000 1700000000000 None [])).
  reflexivity.
Defined.

(** C4 as stated fails: publish and delete requests carry no [imageUrl] and
    are carried out all the same. *)
Lemma publish_and_delete_without_imageUrl :
  let q := [mkRow "k3v9x1q8" (Some "http://x/a.jpg") "" None created
              "2023-11-14T22:13:20.000Z"] in
  truthy (req_imageUrl (mkBody JUndefined JUndefined (JStr "k3v9x1q8") JUndefined))
    = false /\
  publish_media (mkBody JUndefined JUndefined (JStr "k3v9x1q8") JUndefined)
    "0.4fzyo82mvyr" 1700000060000 None q
  = (Json_published "post_4fzyo82m" "2023-11-14T22:14:20.000Z",
     [mkRow "k3v9x1q8" (Some "http://x/a.jpg") ""
        (Some "2023-11-14T22:14:20.000Z") published "2023-11-14T22:13:20.000Z"]) /\
  delete_queue "k3v9x1q8" None q = (Json_ok, []).
Proof. vm_compute. repeat split. Qed.

(** C7. Deleting an id succeeds whether or not a row has it, the row is gone
    from what [/api/queue] lists afterwards while every other row is still
    listed, and deleting once more succeeds again and changes nothing. *)
Theorem delete_queue_idempotent :
  forall (i : string) (q : table),
  exists q' rows,
    delete_queue i None q = (Json_ok, q') /\
    list_queue None q' = (Json_rows rows, q') /\
    (forall r, In r rows -> id r <> i) /\
    (forall r, In r q -> id r <> i -> In r rows) /\
    delete_queue i None q' = (Json_ok, q').
Proof.
  intros i q. unfold delete_queue, list_queue. simpl.
  eexists. eexists. split; [reflexivity|]. split; [reflexivity|].
  repeat split.
  - intros r Hin. apply (Permutation_in _ (Permutation_sym (order_by_perm _))) in Hin.
    apply filter_In in Hin as [_ Hne].
    destruct (String.eqb_spec (id r) i); [discriminate|assumption].
  - intros r Hin Hne. apply (Permutation_in _ (order_by_perm _)).
    apply filter_In. split; [assumption|].
    destruct (String.eqb_spec (id r) i); [contradiction|reflexivity].
  - now rewrite filter_twice.
Qed.

(** C8. [/api/publish_media] for an id no row has answers with a new post id
    and the time of the request, and leaves the table as it was. *)
Theorem publish_media_absent_id :
  forall (b : body) (r36 : string) (now : Z) (q : table) (i : string),
    req_creation_id b = JStr i -> i <> "" ->
    has_id i q = false ->
    publish_media b r36 now None q
      = (Json_published ("post_" ++ makeId r36) (toISOString now), q).
Proof.
  intros b r36 now q i Hb Hi Habs. unfold publish_media.
  rewrite Hb, (truthy_str i Hi). simpl.
  rewrite (update_absent _ (Some i) q); [reflexivity|].
  intros s [= <-]. assumption.
Qed.

Lemma publish_media_absent_id_witness :
  let q := [mkRow "k3v9x1q8" (Some "http://x/a.jpg") "" None created
              "2023-11-14T22:13:20.000Z"] in
  publish_media (mkBody JUndefined JUndefined (JStr "nosuchid") JUndefined)
    "0.4fzyo82mvyr" 1700000060000 None q
  = (Json_published "post_4fzyo82m" "2023-11-14T22:14:20.000Z", q).
Proof.
  intros q.
  apply (publish_media_absent_id
           (mkBody JUndefined JUndefined (JStr "nosuchid") JUndefined)
           "0.4fzyo82mvyr" 1700000060000 q "nosuchid").
  - reflexivity.
  - discriminate.
  - reflexivity.
Defined.

(** C9. [/api/publish_media] for the id of a stored row makes the row
    [published] and sets its [scheduledAt] to the time of the request,
    whatever the status of the row was; for a row already [published] the
    recorded time is overwritten. *)
Theorem publish_media_any_status :
  forall (b : body) (r36 : string) (now : Z) (q : table) (r : row),
    In r q -> req_creation_id b = JStr (id r) -> id r <> "" ->
    exists q',
      publish_media b r36 now None q
        = (Json_published ("post_" ++ makeId r36) (toISOString now), q') /\
      In (mkRow (id r) (imageUrl r) (caption r) (Some (toISOString now))
            published (createdAt r)) q' /\
      (forall r', In r' q' -> id r' = id r ->
         status r' = published /\ scheduledAt r' = Some (toISOString now)) /\
      ids q' = ids q.
Proof.
  intros b r36 now q r Hin Hb Hi. unfold publish_media.
  rewrite Hb, (truthy_str _ Hi). simpl.
  eexists. split; [reflexivity|]. repeat split.
  - now apply (update_hits (toISOString now) (id r) q r).
  - now apply (update_marks (toISOString now) (id r) q r').
  - now apply (update_marks (toISOString now) (id r) q r').
  - apply (update_ids _ (Some (id r))).
Qed.

Lemma publish_media_any_status_witness :
  let r := mkRow "k3v9x1q8" (Some "http://x/a.jpg") ""
             (Some "2023-11-14T22:14:20.000Z") published
             "2023-11-14T22:13:20.000Z" in
  exists q',
    publish_media (mkBody JUndefined JUndefined (JStr "k3v9x1q8") JUndefined)
      "0.4fzyo82mvyr" 1700000120000 None [r]
      = (Json_published "post_4fzyo82m" "2023-11-14T22:15:20.000Z", q') /\
    In (mkRow "k3v9x1q8" (Some "http://x/a.jpg") ""
          (Some "2023-11-14T22:15:20.000Z") published
          "2023-11-14T22:13:20.000Z") q'.
Proof.
  intros r.
  destruct (publish_media_any_status
              (mkBody JUndefined JUndefined (JStr "k3v9x1q8") JUndefined)
              "0.4fzyo82mvyr" 1700000120000 [r] r
              (or_introl eq_refl) eq_refl ltac:(discriminate))
    as [q' [Hres [Hin _]]].
  exists q'. split; [exact Hres | exact Hin].
Defined.

(** C10. A create or schedule request whose [caption] is absent or [null]
    inserts a row whose caption is the empty string; the [imageUrl] and a
    non-empty [scheduleTime] are stored as sent. *)
Theorem omitted_caption_is_stored_empty :
  forall (b : body) (r36 : string) (now now' : Z) (q : table),
    req_caption b = JUndefined \/ req_caption b = JNull ->
    truthy (req_imageUrl b) = true ->
    has_id (makeId r36) q = false ->
    exists rc rs sched,
      create_media b r36 now None q
        = (Json_creation_id (makeId r36), (q ++ [rc])%list) /\
      schedule b r36 now now' None q
        = (Json_scheduled (makeId r36) sched, (q ++ [rs])%list) /\
      caption rc = "" /\ caption rs = "" /\
      (forall u, req_imageUrl b = JStr u ->
         imageUrl rc = Some u /\ imageUrl rs = Some u) /\
      scheduledAt rs = Some sched /\
      (forall t, req_scheduleTime b = JStr t -> t <> "" -> sched = t).
Proof.
  intros b r36 now now' q Hcap Himg Hfresh.
  unfold create_media, schedule, db_insert. rewrite Himg. simpl.
  rewrite Hfresh.
  assert (Hc : js_or (req_caption b) "" = "") by (destruct Hcap as [-> | ->]; reflexivity).
  do 3 eexists. split; [reflexivity|]. split; [reflexivity|]. simpl.
  repeat split; try assumption.
  - rewrite H. reflexivity.
  - rewrite H. reflexivity.
  - intros t Ht Hne. rewrite Ht. simpl.
    destruct (String.eqb_spec t ""); [contradiction|reflexivity].
Qed.

Lemma omitted_caption_is_stored_empty_witness :
  exists rc rs sched,
    create_media (mkBody (JStr "http://x/a.jpg") JNull JUndefined (JStr "2023-11-14T22:15"))
      "0.k3v9x1q8zrb" 1700000000000 None []
      = (Json_creation_id "k3v9x1q8", [rc]) /\
    schedule (mkBody (JStr "http://x/a.jpg") JNull JUndefined (JStr "2023-11-14T22:15"))
      "0.k3v9x1q8zrb" 1700000000000 1700000000001 None []
      = (Json_scheduled "k3v9x1q8" sched, [rs]) /\
    caption rc = "" /\ caption rs = "" /\ sched = "2023-11-14T22:15".
Proof.
  destruct (omitted_caption_is_stored_empty
              (mkBody (JStr "http://x/a.jpg") JNull JUndefined (JStr "2023-11-14T22:15"))
              "0.k3v9x1q8zrb" 1700000000000 1700000000001 []
              (or_intror eq_refl) eq_refl eq_refl)
    as [rc [rs [sched [H1 [H2 [H3 [H4 [_ [_ H5]]]]]]]]].
  exists rc, rs, sched. repeat split; try assumption.
  apply (H5 "2023-11-14T22:15" eq_refl). discriminate.
Defined.

(** ** One run of the scheduled task *)



Lemma stamp_miss (due : list row) (io : nat -> Z * option string) (r : row) :
  ~ In (id r) (ids due) -> stamp due io r = r.
Proof.
  revert io. induction due as [|d due IH]; intros io Hnin; simpl; [reflexivity|].
  destruct (String.eqb_spec (id r) (id d)) as [Heq|Hne].
  - elim Hnin. left. now symmetry.
  - apply IH. intros Hin. apply Hnin. now right.
Qed.

Lemma stamp_hit (due : list row) (io : nat -> Z * option string)
  (r d : row) (j : nat) :
  NoDup (ids due) -> nth_error due j = Some d -> id r = id d ->
  stamp due io r = publish_row (toISOString (fst (io j))) r.
Proof.
  revert io j. induction due as [|d0 due IH]; intros io j Hnd Hj Hid.
  - destruct j; discriminate.
  - simpl. inversion Hnd as [|? ? Hnin Hnd']; subst.
    destruct j as [|j]; simpl in Hj.
    + injection Hj as ->. rewrite Hid, String.eqb_refl. reflexivity.
    + destruct (String.eqb_spec (id r) (id d0)) as [Heq|Hne].
      * elim Hnin. rewrite <- Heq, Hid. apply in_map. eapply nth_error_In, Hj.
      * now apply (IH (fun k => io (S k)) j).
Qed.

Lemma stamp_step (d : row) (due : list row) (io : nat -> Z * option string)
  (q : table) :
  ~ In (id d) (ids due) ->
  map (stamp due (fun k => io (S k)))
    (map (fun r => if sql_eq (id r) (Some (id d))
                   then publish_row (toISOString (fst (io O))) r else r) q)
  = map (stamp (d :: due) io) q.
Proof.
  intros Hnin. rewrite map_map. apply map_ext. intros r. simpl.
  destruct (String.eqb_spec (id r) (id d)) as [Heq|Hne]; [|reflexivity].
  apply stamp_miss. simpl. now rewrite Heq.
Qed.

Lemma in_firstn {A : Type} (k : nat) (l : list A) (x : A) :
  In x (firstn k l) -> In x l.
Proof.
  revert k. induction l as [|y l IH]; intros k Hin.
  - now rewrite firstn_nil in Hin.
  - destruct k as [|k]; [contradiction|].
    destruct Hin as [->|Hin]; [now left|right; eapply IH, Hin].
Qed.


(** A run of the loop whose [k]-th statement is the first one rejected. *)
Lemma tick_loop_rejected (due : list row) (io : nat -> Z * option string)
  (q : table) (k : nat) (m : string) :
  NoDup (ids due) ->
  (k < List.length due)%nat ->
  (forall j, (j < k)%nat -> snd (io j) = None) ->
  snd (io k) = Some m ->
  tick_loop due io q
  = ((map (fun r => Log_publishing (id r)) (firstn (S k) due)
        ++ [Log_scheduler_error m])%list,
     map (stamp (firstn k due) io) q).
Proof.
  revert io q k. induction due as [|d due IH]; intros io q k Hnd Hk Hok Hko.
  - simpl in Hk. lia.
  - inversion Hnd as [|? ? Hnin Hnd']; subst.
    cbn [tick_loop]. unfold tick_body, db_update_published.
    destruct k as [|k].
    + rewrite Hko. simpl. now rewrite map_id.
    + rewrite (Hok O) by lia.
      rewrite (IH (fun j => io (S j)) _ k); try assumption.
      * cbn [firstn map app]. rewrite stamp_step; [reflexivity|].
        intros Hin. apply Hnin. unfold ids in *.
        apply in_map_iff in Hin as [x [Hx Hin]]. apply in_map_iff.
        exists x. split; [assumption|]. eapply in_firstn, Hin.
      * simpl in Hk. lia.
      * intros j Hj. apply Hok. lia.
Qed.

Lemma ids_filter_nodup (p : row -> bool) (q : table) :
  NoDup (ids q) -> NoDup (ids (filter p q)).
Proof.
  unfold ids. induction q as [|r q IH]; intros Hnd; simpl; [constructor|].
  inversion Hnd as [|? ? Hnin Hnd']; subst.
  destruct (p r); simpl; [|now apply IH].
  constructor; [|now apply IH].
  intros Hin. apply Hnin. apply in_map_iff in Hin as [x [Hx Hin]].
  apply in_map_iff. exists x. split; [assumption|].
  now apply filter_In in Hin.
Qed.

Lemma ids_firstn_nodup (k : nat) (q : table) :
  NoDup (ids q) -> NoDup (ids (firstn k q)).
Proof.
  unfold ids. revert k. induction q as [|r q IH]; intros k Hnd.
  - rewrite firstn_nil. constructor.
  - destruct k as [|k]; simpl; [constructor|].
    inversion Hnd as [|? ? Hnin Hnd']; subst.
    constructor; [|now apply IH].
    intros Hin. apply Hnin. apply in_map_iff in Hin as [x [Hx Hin]].
    apply in_map_iff. exists x. split; [assumption|].
    eapply in_firstn, Hin.
Qed.

Lemma same_id_same_row (q : table) (r r0 : row) :
  NoDup (ids q) -> In r q -> In r0 q -> id r0 = id r -> r0 = r.
Proof.
  unfold ids. induction q as [|x q IH]; intros Hnd Hr Hr0 Hid; [contradiction|].
  inversion Hnd as [|? ? Hnin Hnd']; subst.
  destruct Hr as [->|Hr], Hr0 as [->|Hr0].
  - reflexivity.
  - elim Hnin. rewrite <- Hid. now apply in_map.
  - elim Hnin. rewrite Hid. now apply in_map.
  - now apply IH.
Qed.

Lemma later_rows_not_stamped (due : list row) (j k : nat) (r : row) :
  NoDup (ids due) -> nth_error due j = Some r -> (k <= j)%nat ->
  ~ In (id r) (ids (firstn k due)).
Proof.
  revert j k. induction due as [|d due IH]; intros j k Hnd Hj Hkj.
  - destruct j; discriminate.
  - inversion Hnd as [|? ? Hnin Hnd']; subst.
    destruct k as [|k]; [intros []|].
    destruct j as [|j]; [lia|]. simpl in Hj.
    cbn [firstn ids map]. intros [Heq|Hin].
    + apply Hnin. fold (ids due). rewrite Heq. apply in_map.
      eapply nth_error_In, Hj.
    + apply (IH j k Hnd' Hj); [lia|exact Hin].
Qed.



(** C2 as stated fails: the statement for the first due row is rejected, and
    the second due row, whose statement would have gone through, is not
    visited. *)
Lemma rejected_update_skips_later_rows :
  let a := mkRow "k3v9x1q8" (Some "http://x/a.jpg") ""
             (Some "2023-11-14T22:12") scheduled "2023-11-14T21:00:00.000Z" in
  let b := mkRow "4fzyo82m" (Some "http://x/b.jpg") ""
             (Some "2023-11-14T22:13") scheduled "2023-11-14T21:05:00.000Z" in
  let io := fun k : nat =>
              match k with
              | O => (1700000000007, Some "SQLITE_BUSY: database is locked")
              | _ => (1700000000009, None)
              end in
  is_due (toISOString 1700000000000) b = true /\
  snd (io 1%nat) = None /\
  cron_tick 1700000000000 None io [a; b]
  = ([Log_publishing "k3v9x1q8";
      Log_scheduler_error "SQLITE_BUSY: database is locked"], [a; b]).
Proof. vm_compute. repeat split. Qed.

(** C2, as the task has it.  The [try] encloses the whole loop: when the
    statement of the [k]-th due row is the first one rejected, the rows
    before it are [published], that row and the ones after it are left as
    they were for the next run, and the error is logged once. *)
Theorem rejected_update_ends_the_run :
  forall (now : Z) (io : nat -> Z * option string) (q : table)
         (k : nat) (m : string),
    NoDup (ids q) ->
    (k < List.length (filter (is_due (toISOString now)) q))%nat ->
    (forall j, (j < k)%nat -> snd (io j) = None) ->
    snd (io k) = Some m ->
    exists q',
      cron_tick now None io q
      = ((map (fun r => Log_publishing (id r))
            (firstn (S k) (filter (is_due (toISOString now)) q))
          ++ [Log_scheduler_error m])%list, q') /\
      (forall j r, (j < k)%nat ->
         nth_error (filter (is_due (toISOString now)) q) j = Some r ->
         In (publish_row (toISOString (fst (io j))) r) q') /\
      (forall j r, (k <= j)%nat ->
         nth_error (filter (is_due (toISOString now)) q) j = Some r ->
         In r q' /\ status r = scheduled).
Proof.
  intros now io q k m Hnd Hk Hok Hko.
  set (due := filter (is_due (toISOString now)) q) in *.
  assert (Hnd' : NoDup (ids due)) by now apply ids_filter_nodup.
  exists (map (stamp (firstn k due) io) q). split; [|split].
  - unfold cron_tick, db_all_due. fold due. now apply tick_loop_rejected.
  - intros j r Hj Hr.
    assert (Hin : In r q).
    { apply nth_error_In in Hr. now apply filter_In in Hr. }
    rewrite <- (stamp_hit (firstn k due) io r r j).
    + now apply in_map.
    + now apply ids_firstn_nodup.
    + rewrite nth_error_firstn. destruct (Nat.ltb_spec j k); [assumption|lia].
    + reflexivity.
  - intros j r Hj Hr.
    assert (Hin : In r due) by (eapply nth_error_In, Hr).
    apply filter_In in Hin as [Hin Hd]. split.
    + rewrite <- (stamp_miss (firstn k due) io r).
      * now apply in_map.
      * now apply (later_rows_not_stamped due j k r).
    + unfold is_due in Hd. destruct (status r); try discriminate. reflexivity.
Qed.

Lemma rejected_update_ends_the_run_witness :
  let a := mkRow "k3v9x1q8" (Some "http://x/a.jpg") ""
             (Some "2023-11-14T22:12") scheduled "2023-11-14T21:00:00.000Z" in
  let b := mkRow "4fzyo82m" (Some "http://x/b.jpg") ""
             (Some "2023-11-14T22:13") scheduled "2023-11-14T21:05:00.000Z" in
  let io := fun k : nat =>
              match k with
              | O => (1700000000007, Some "SQLITE_BUSY: database is locked")
              | _ => (1700000000009, None)
              end in
  exists q',
    cron_tick 1700000000000 None io [a; b]
    = ([Log_publishing "k3v9x1q8";
        Log_scheduler_error "SQLITE_BUSY: database is locked"], q') /\
    In b q'.
Proof.
  intros a b io.
  destruct (rejected_update_ends_the_run 1700000000000 io [a; b] O
              "SQLITE_BUSY: database is locked")
    as [q' [Hrun [_ Hrest]]].
  - repeat constructor; simpl; intuition discriminate.
  - vm_compute. lia.
  - intros j Hj. lia.
  - reflexivity.
  - exists q'. split.
    + exact Hrun.
    + apply (Hrest 1%nat b); [lia|reflexivity].
Defined.

(** ** Runs of the server *)

Lemma nth_error_set_nth {A : Type} (k : nat) (x : A) (l : list A) :
  (k < List.length l)%nat -> nth_error (set_nth k x l) k = Some x.
Proof.
  revert k. induction l as [|y l IH]; intros k Hk; simpl in Hk; [lia|].
  destruct k as [|k]; simpl; [reflexivity|]. apply IH. lia.
Qed.

Lemma insert_keeps_nodup (f : option string) (r : row) (q q' : table) :
  NoDup (ids q) -> db_insert f r q = Resolved q' -> NoDup (ids q').
Proof.
  unfold db_insert. intros Hnd H. destruct f; [discriminate|].
  destruct (has_id (id r) q) eqn:Hid; [discriminate|].
  injection H as <-. unfold ids. rewrite map_app. simpl.
  apply NoDup_app; [assumption|repeat constructor; intros []|].
  intros x Hx [<-|[]]. now apply has_id_false in Hid.
Qed.

Lemma update_keeps_nodup (f : option string) (now : string)
  (i : option string) (q q' : table) :
  NoDup (ids q) -> db_update_published f now i q = Resolved q' -> NoDup (ids q').
Proof.
  unfold db_update_published. intros Hnd H. destruct f; [discriminate|].
  injection H as <-. now rewrite update_ids.
Qed.

Lemma step_keeps_nodup (s : server) (e : event) :
  NoDup (ids (queue s)) -> NoDup (ids (queue (fst (step s e)))).
Proof.
  intros Hnd. destruct e as [b r36 now f|b r36 now f|b r36 now now' f|f|i f|now f|k now f];
    cbn [step answer fst snd queue].
  - unfold create_media. destruct (truthy (req_imageUrl b)); [|exact Hnd].
    cbn [negb]. cbv iota.
    destruct (db_insert f _ (queue s)) eqn:Hins; [|exact Hnd].
    eapply insert_keeps_nodup; eassumption.
  - unfold publish_media. destruct (truthy (req_creation_id b)); [|exact Hnd].
    cbn [negb]. cbv iota.
    destruct (db_update_published f _ _ (queue s)) eqn:Hup; [|exact Hnd].
    eapply update_keeps_nodup; eassumption.
  - unfold schedule. destruct (truthy (req_imageUrl b)); [|exact Hnd].
    cbn [negb]. cbv iota.
    destruct (db_insert f _ (queue s)) eqn:Hins; [|exact Hnd].
    eapply insert_keeps_nodup; eassumption.
  - unfold list_queue. destruct (db_all_queue f (queue s)); exact Hnd.
  - unfold delete_queue, db_delete. destruct f; [exact Hnd|].
    now apply ids_filter_nodup.
  - destruct (db_all_due f (toISOString now) (queue s)); exact Hnd.
  - destruct (nth_error (running s) k) as [[|r due']|]; try exact Hnd.
    unfold tick_body.
    destruct (db_update_published f _ _ (queue s)) eqn:Hup; [|exact Hnd].
    eapply update_keeps_nodup; eassumption.
Qed.

Lemma run_keeps_nodup (tr : list event) (s : server) :
  NoDup (ids (queue s)) -> NoDup (ids (queue (run s tr))).
Proof.
  revert s. induction tr as [|e tr IH]; intros s Hnd; [exact Hnd|].
  simpl. apply IH. now apply step_keeps_nodup.
Qed.

Lemma insert_is_fresh (f : option string) (r : row) (q q' : table) :
  db_insert f r q = Resolved q' -> ~ In (id r) (ids q) /\ In (id r) (ids q').
Proof.
  unfold db_insert. intros H. destruct f; [discriminate|].
  destruct (has_id (id r) q) eqn:Hid; [discriminate|].
  injection H as <-. split; [now apply has_id_false|].
  unfold ids. rewrite map_app. apply in_or_app. right. now left.
Qed.

(** C6 as stated fails: the id of a deleted row is handed out again. *)
Lemma deleted_id_is_assigned_again :
  let tr :=
    [Post_create_media (mkBody (JStr "http://x/a.jpg") JUndefined JUndefined JUndefined)
       "0.k3v9x1q8zrb" 1700000000000 None;
     Delete_queue "k3v9x1q8" None;
     Post_schedule (mkBody (JStr "http://x/b.jpg") JUndefined JUndefined JUndefined)
       "0.k3v9x1q8m2" 1700000300000 1700000300001 None] in
  assigned_ids boot tr = ["k3v9x1q8"; "k3v9x1q8"] /\
  ~ NoDup (assigned_ids boot tr).
Proof.
  intros tr. assert (H : assigned_ids boot tr = ["k3v9x1q8"; "k3v9x1q8"])
    by (vm_compute; reflexivity).
  split; [exact H|]. rewrite H. intros Hnd.
  inversion Hnd as [|? ? Hnin _]; subst. apply Hnin. now left.
Qed.

(** C6, as the table has it.  Whatever requests and scheduler runs the
    server has gone through since it started on an empty table, the rows it
    stores have pairwise distinct ids, and the id a create or schedule
    request hands out is the id of no row stored at that time.  (The id of
    a deleted row can be handed out again.) *)
Theorem stored_ids_are_distinct :
  forall (tr : list event),
    NoDup (ids (queue (run boot tr))) /\
    (forall e i,
       assigned (run boot tr) e = Some i ->
       ~ In i (ids (queue (run boot tr))) /\
       In i (ids (queue (fst (step (run boot tr) e))))).
Proof.
  intros tr. split.
  - apply run_keeps_nodup. constructor.
  - generalize (run boot tr) as s. intros s e i. unfold assigned.
    destruct e as [b r36 now f|b r36 now f|b r36 now now' f|f|j f|now f|k now f];
      cbn [step answer fst snd queue].
    + unfold create_media. destruct (truthy (req_imageUrl b)); [|discriminate].
      cbn [negb]. cbv iota.
      destruct (db_insert f _ (queue s)) eqn:Hins; [|discriminate].
      cbn [fst snd]. intros [= <-]. apply (insert_is_fresh _ _ _ _ Hins).
    + unfold publish_media. destruct (truthy (req_creation_id b)); [|discriminate].
      cbn [negb]. cbv iota.
      destruct (db_update_published f _ _ (queue s)); discriminate.
    + unfold schedule. destruct (truthy (req_imageUrl b)); [|discriminate].
      cbn [negb]. cbv iota.
      destruct (db_insert f _ (queue s)) eqn:Hins; [|discriminate].
      cbn [fst snd]. intros [= <-]. apply (insert_is_fresh _ _ _ _ Hins).
    + unfold list_queue. destruct (db_all_queue f (queue s)); discriminate.
    + unfold delete_queue. destruct (db_delete f j (queue s)); discriminate.
    + destruct (db_all_due f (toISOString now) (queue s)); discriminate.
    + destruct (nth_error (running s) k) as [[|r due']|]; try discriminate.
      destruct (tick_body r now f (queue s)); discriminate.
Qed.

Lemma stored_ids_are_distinct_witness :
  let tr :=
    [Post_create_media (mkBody (JStr "http://x/a.jpg") JUndefined JUndefined JUndefined)
       "0.k3v9x1q8zrb" 1700000000000 None] in
  let e :=
    Post_schedule (mkBody (JStr "http://x/b.jpg") JUndefined JUndefined JUndefined)
      "0.4fzyo82mvyr" 1700000300000 1700000300001 None in
  ~ In "4fzyo82m" (ids (queue (run boot tr))) /\
  In "4fzyo82m" (ids (queue (fst (step (run boot tr) e)))).
Proof.
  intros tr e.
  apply (proj2 (stored_ids_are_distinct tr) e "4fzyo82m").
  vm_compute. reflexivity.
Defined.

Lemma update_keeps_published (now : string) (i : option string) (r : row) :
  status r = published ->
  status (if sql_eq (id r) i then publish_row now r else r) = published.
Proof. intros H. now destruct (sql_eq (id r) i). Qed.

(** No step takes a stored row out of [published]. *)
Lemma published_is_final (s : server) (e : event) (r r' : row) :
  NoDup (ids (queue s)) ->
  In r (queue s) -> status r = published ->
  In r' (queue (fst (step s e))) -> id r' = id r ->
  status r' = published.
Proof.
  intros Hnd Hin Hst.
  assert (Hsame : In r' (queue s) -> id r' = id r -> status r' = published).
  { intros Hin' Hid. now rewrite (same_id_same_row _ _ _ Hnd Hin Hin' Hid). }
  assert (Hupd : forall f now i q', db_update_published f now i (queue s) = Resolved q' ->
                   In r' q' -> id r' = id r -> status r' = published).
  { unfold db_update_published. intros f now i q' H Hin' Hid.
    destruct f; [discriminate|]. injection H as <-.
    apply in_map_iff in Hin' as [r0 [<- Hr0]].
    assert (Hid0 : id r0 = id r) by (destruct (sql_eq (id r0) i); exact Hid).
    rewrite (same_id_same_row _ _ _ Hnd Hin Hr0 Hid0).
    now apply update_keeps_published. }
  assert (Hins : forall f x q', db_insert f x (queue s) = Resolved q' ->
                   In r' q' -> id r' = id r -> status r' = published).
  { intros f x q' H Hin' Hid. destruct (insert_is_fresh _ _ _ _ H) as [Hfresh _].
    unfold db_insert in H. destruct f; [discriminate|].
    destruct (has_id (id x) (queue s)); [discriminate|]. injection H as <-.
    apply in_app_or in Hin' as [Hin'|[<-|[]]]; [now apply Hsame|].
    elim Hfresh. rewrite Hid. now apply in_map. }
  destruct e as [b r36 now f|b r36 now f|b r36 now now' f|f|i f|now f|k now f];
    cbn [step answer fst snd queue].
  - unfold create_media. destruct (truthy (req_imageUrl b)); [|exact Hsame].
    cbn [negb]. cbv iota.
    destruct (db_insert f _ (queue s)) eqn:H; [|exact Hsame]. eapply Hins, H.
  - unfold publish_media. destruct (truthy (req_creation_id b)); [|exact Hsame].
    cbn [negb]. cbv iota.
    destruct (db_update_published f _ _ (queue s)) eqn:H; [|exact Hsame].
    eapply Hupd, H.
  - unfold schedule. destruct (truthy (req_imageUrl b)); [|exact Hsame].
    cbn [negb]. cbv iota.
    destruct (db_insert f _ (queue s)) eqn:H; [|exact Hsame]. eapply Hins, H.
  - unfold list_queue. destruct (db_all_queue f (queue s)); exact Hsame.
  - unfold delete_queue, db_delete. destruct f; [exact Hsame|]. cbn [snd].
    intros Hin' Hid. apply filter_In in Hin' as [Hin' _]. now apply Hsame.
  - destruct (db_all_due f (toISOString now) (queue s)); exact Hsame.
  - destruct (nth_error (running s) k) as [[|d due']|]; try exact Hsame.
    unfold tick_body.
    destruct (db_update_published f _ _ (queue s)) eqn:H; [|exact Hsame].
    eapply Hupd, H.
Qed.

(** C1 as stated fails: a job scheduled in the past is read by the task,
    published by hand before the task's [UPDATE], and written a second time
    by that [UPDATE], although its stored status is [published] by then. *)
Lemma tick_rewrites_published_row :
  let tr :=
    [Post_schedule
       (mkBody (JStr "http://x/a.jpg") JUndefined JUndefined (JStr "2023-11-14T22:12"))
       "0.k3v9x1q8zrb" 1699999000000 1699999000001 None;
     Cron_fire 1700000000000 None;
     Post_publish_media
       (mkBody JUndefined JUndefined (JStr "k3v9x1q8") JUndefined)
       "0.4fzyo82mvyr" 1700000000003 None] in
  queue (run boot tr)
  = [mkRow "k3v9x1q8" (Some "http://x/a.jpg") ""
       (Some "2023-11-14T22:13:20.003Z") published "2023-11-14T21:56:40.001Z"] /\
  queue (run boot (tr ++ [Cron_turn 0 1700000000007 None]))
  = [mkRow "k3v9x1q8" (Some "http://x/a.jpg") ""
       (Some "2023-11-14T22:13:20.007Z") published "2023-11-14T21:56:40.001Z"] /\
  publishes_recorded "k3v9x1q8" boot (tr ++ [Cron_turn 0 1700000000007 None]) = 2%nat.
Proof. vm_compute. repeat split. Qed.

(** C1, as the task has it.  The [UPDATE] of a turn of the loop names the
    row by its id alone: every stored row with that id is written
    [published] with the time of the turn, whatever its status is by then;
    when no row has the id any more the table is left as it was, the run
    goes on and no error is logged.  No step of the server takes a stored
    row out of [published]. *)
Theorem tick_update_is_keyed_on_id :
  forall (s : server) (k : nat) (now : Z) (r : row) (due' : list row),
    nth_error (running s) k = Some (r :: due') ->
    let s' := fst (step s (Cron_turn k now None)) in
    (forall r0, In r0 (queue s) -> id r0 = id r ->
       In (publish_row (toISOString now) r0) (queue s')) /\
    (forall r', In r' (queue s') -> id r' = id r ->
       status r' = published /\ scheduledAt r' = Some (toISOString now)) /\
    (has_id (id r) (queue s) = false ->
       queue s' = queue s /\
       console s' = (console s ++ [Log_publishing (id r)])%list /\
       nth_error (running s') k = Some due') /\
    (forall e r0 r1,
       NoDup (ids (queue s)) -> In r0 (queue s) -> status r0 = published ->
       In r1 (queue (fst (step s e))) -> id r1 = id r0 ->
       status r1 = published).
Proof.
  intros s k now r due' Hk s'. subst s'. cbn [step]. rewrite Hk.
  unfold tick_body, db_update_published. cbn [fst queue console running].
  split; [|split; [|split]].
  - intros r0 Hin Hid. now apply update_hits.
  - intros r' Hin Hid. now apply (update_marks (toISOString now) (id r) (queue s) r').
  - intros Habs. split; [|split].
    + apply (update_absent _ (Some (id r))). intros i [= <-]. exact Habs.
    + reflexivity.
    + apply nth_error_set_nth. apply nth_error_Some. now rewrite Hk.
  - intros e r0 r1. apply published_is_final.
Qed.

Lemma tick_update_is_keyed_on_id_witness :
  let r := mkRow "k3v9x1q8" (Some "http://x/a.jpg") ""
             (Some "2023-11-14T22:12") scheduled "2023-11-14T21:56:40.001Z" in
  let r0 := mkRow "k3v9x1q8" (Some "http://x/a.jpg") ""
              (Some "2023-11-14T22:13:20.003Z") published
              "2023-11-14T21:56:40.001Z" in
  In (mkRow "k3v9x1q8" (Some "http://x/a.jpg") ""
        (Some "2023-11-14T22:13:20.007Z") published "2023-11-14T21:56:40.001Z")
     (queue (fst (step (mkServer [r0] [[r]] []) (Cron_turn 0 1700000000007 None)))).
Proof.
  intros r r0.
  apply (proj1 (tick_update_is_keyed_on_id (mkServer [r0] [[r]] []) 0
                  1700000000007 r [] eq_refl) r0).
  - now left.
  - reflexivity.
Defined.

(** ** The task inside the server *)

Lemma turns_succ (k : nat) (io : nat -> Z * option string) (n : nat) :
  turns k io (S n)
  = Cron_turn k (fst (io O)) (snd (io O)) :: turns k (fun j => io (S j)) n.
Proof.
  unfold turns. cbn [seq map]. f_equal.
  rewrite <- seq_shift, map_map. reflexivity.
Qed.

Lemma finished_run_is_idle (k : nat) (io : nat -> Z * option string)
  (n : nat) (s : server) :
  nth_error (running s) k = Some [] -> run s (turns k io n) = s.
Proof.
  revert io. induction n as [|n IH]; intros io Hk; [reflexivity|].
  rewrite turns_succ. cbn [run step]. rewrite Hk. cbn [fst]. now apply IH.
Qed.

(** The turns of one run of the task, taken one after the other with nothing
    in between, do to the table and to the console what [tick_loop] does. *)
Lemma turns_are_tick_loop (due : list row) (io : nat -> Z * option string)
  (s : server) (k : nat) :
  nth_error (running s) k = Some due ->
  queue (run s (turns k io (List.length due)))
    = snd (tick_loop due io (queue s)) /\
  console (run s (turns k io (List.length due)))
    = (console s ++ fst (tick_loop due io (queue s)))%list.
Proof.
  revert io s. induction due as [|d due IH]; intros io s Hk.
  - cbn. now rewrite app_nil_r.
  - cbn [List.length]. rewrite turns_succ. cbn [run step tick_loop]. rewrite Hk.
    assert (Hlt : (k < List.length (running s))%nat)
      by (apply nth_error_Some; now rewrite Hk).
    destruct (tick_body d (fst (io O)) (snd (io O)) (queue s)) as [q'|m].
    + cbn [fst].
      destruct (IH (fun j => io (S j))
                  (mkServer q' (set_nth k due (running s))
                     (console s ++ [Log_publishing (id d)])%list))
        as [Hq Hc].
      { cbn [running]. now apply nth_error_set_nth. }
      cbn [queue console] in Hq, Hc. rewrite Hq, Hc.
      destruct (tick_loop due (fun j => io (S j)) q') as [log q''].
      cbn [fst snd]. split; [reflexivity|]. now rewrite <- app_assoc.
    + cbn [fst snd]. rewrite finished_run_is_idle; [split; reflexivity|].
      cbn [running]. now apply nth_error_set_nth.
Qed.

(** A whole run of the task without anything in between is [cron_tick]. *)
Lemma uninterrupted_task_is_cron_tick (now : Z) (f : option string)
  (io : nat -> Z * option string) (s : server) :
  let n := List.length (filter (is_due (toISOString now)) (queue s)) in
  let s' := run s (Cron_fire now f :: turns (List.length (running s)) io n) in
  queue s' = snd (cron_tick now f io (queue s)) /\
  console s' = (console s ++ fst (cron_tick now f io (queue s)))%list.
Proof.
  intros n s'. subst n s'. cbn [run step]. unfold cron_tick, db_all_due.
  destruct f as [m|]; cbn [fst].
  - rewrite finished_run_is_idle; [split; reflexivity|].
    cbn [running]. rewrite nth_error_app2, Nat.sub_diag; [reflexivity|lia].
  - set (due := filter (is_due (toISOString now)) (queue s)).
    apply (turns_are_tick_loop due io
             (mkServer (queue s) (running s ++ [due])%list (console s))).
    cbn [running]. rewrite nth_error_app2, Nat.sub_diag; [reflexivity|lia].
Qed.
